(** * The site configuration of the documentation site (docs/src/config.ts)

    The module declares the type [Config] and exports one constant,

      export const config = Object.freeze<Config>({ seo: {...}, github: ...,
                                                    discord: ..., algolia: {...} });

    The development below embeds the fragment of ECMAScript that this
    declaration exercises (ordinary objects with property descriptors,
    the internal methods Get, Set and Delete, and Object.freeze) together with
    the fragment of the TypeScript type language that it mentions (string,
    string literal types, object types with readonly modifiers, and
    Readonly<T>), and states the properties of the exported constant on
    that embedding. *)

From Stdlib Require Import Ascii String.
From stdpp Require Import base option list gmap strings fin_maps.

Local Open Scope string_scope.
Local Open Scope list_scope.

(** ** Values, property descriptors, objects, heap *)

Module JS.

(** An object reference is the index of the object in the heap. *)
Abbreviation loc := nat.

Inductive value :=
  | VUndef
  | VNull
  | VStr (s : string)
  | VRef (l : loc).

(** A data property descriptor. Enumerability plays no role in what follows
    and is left out. *)
Record pdesc := PDesc {
  pd_value : value;
  pd_writable : bool;
  pd_configurable : bool
}.

Record object := Obj {
  o_props : gmap string pdesc;
  o_extensible : bool
}.

Abbreviation heap := (list object).

(** ** Completions: code either returns normally or throws *)

Inductive error := TypeError.

Inductive completion (A : Type) :=
  | Normal (a : A)
  | Throw (e : error).
Arguments Normal {A} a.
Arguments Throw {A} e.

(** Code is a function from the heap to a completion and the heap it leaves
    behind; a throw keeps the heap as it was at the point of the throw. *)
Definition M (A : Type) := heap -> completion A * heap.

Definition ret {A} (a : A) : M A := fun h => (Normal a, h).

Definition bind {A B} (m : M A) (k : A -> M B) : M B :=
  fun h => match m h with
           | (Normal a, h') => k a h'
           | (Throw e, h') => (Throw e, h')
           end.

Declare Scope js_scope.
Delimit Scope js_scope with js.
Notation "'let*' x ':=' m 'in' k" := (bind m (fun x => k))
  (at level 10, x name, m at level 100, k at level 200) : js_scope.
Notation "m ';;;' k" := (bind m (fun _ => k))
  (at level 100, k at level 200, right associativity) : js_scope.
Local Open Scope js_scope.

(** Strict-mode code turns a failed assignment or delete into a TypeError;
    sloppy code drops it. Module code, such as config.ts and every module
    that imports it, is strict. *)
Inductive mode := Strict | Sloppy.

(** ** Internal methods of ordinary objects *)

Definition empty_object : object := Obj ∅ true.

(** OrdinaryObjectCreate: a fresh extensible object without own properties. *)
Definition OrdinaryObjectCreate : M loc :=
  fun h => (Normal (List.length h), h ++ [empty_object]).

Definition data_property (v : value) : pdesc := PDesc v true true.

(** CreateDataPropertyOrThrow, as used by the evaluation of an object
    literal: the property becomes a writable, configurable data property. *)
Definition CreateDataPropertyOrThrow (l : loc) (k : string) (v : value) : M unit :=
  fun h =>
    match h !! l with
    | None => (Throw TypeError, h)
    | Some o =>
        match o_props o !! k with
        | Some d =>
            if pd_configurable d
            then (Normal (), <[l := Obj (<[k := data_property v]> (o_props o)) (o_extensible o)]> h)
            else (Throw TypeError, h)
        | None =>
            if o_extensible o
            then (Normal (), <[l := Obj (<[k := data_property v]> (o_props o)) (o_extensible o)]> h)
            else (Throw TypeError, h)
        end
    end.

(** Reading an own data property of an object in the heap. The objects of
    this module inherit from Object.prototype only, which has none of the
    property names used here, so a missing own property reads as undefined. *)
Definition get_own (h : heap) (l : loc) (k : string) : value :=
  match h !! l with
  | Some o => match o_props o !! k with
              | Some d => pd_value d
              | None => VUndef
              end
  | None => VUndef
  end.

(** The member expression [v.k]: reading a property of undefined or null
    throws; a string has none of the properties named here. *)
Definition GetV (v : value) (k : string) : M value :=
  fun h =>
    match v with
    | VRef l => (Normal (get_own h l k), h)
    | VStr _ => (Normal VUndef, h)
    | VUndef | VNull => (Throw TypeError, h)
    end.

(** OrdinarySet on an object with data properties only: the updated object
    when the assignment takes effect, [None] when it is refused. The
    prototype chain is not modelled, so the verdict is the real one for own
    properties and for names that Object.prototype does not define; the
    statements below about refused assignments speak of own properties. *)
Definition ordinary_set (o : object) (k : string) (v : value) : option object :=
  match o_props o !! k with
  | Some d =>
      if pd_writable d
      then Some (Obj (<[k := PDesc v true (pd_configurable d)]> (o_props o)) (o_extensible o))
      else None
  | None =>
      if o_extensible o
      then Some (Obj (<[k := data_property v]> (o_props o)) (o_extensible o))
      else None
  end.

(** The assignment [target.k = v] (PutValue on a property reference). *)
Definition PutValue (md : mode) (target : value) (k : string) (v : value) : M unit :=
  fun h =>
    match target with
    | VRef l =>
        match h !! l with
        | None => (Throw TypeError, h)
        | Some o =>
            match ordinary_set o k v with
            | Some o' => (Normal (), <[l := o']> h)
            | None => match md with
                      | Strict => (Throw TypeError, h)
                      | Sloppy => (Normal (), h)
                      end
            end
        end
    | VStr _ => match md with
                | Strict => (Throw TypeError, h)
                | Sloppy => (Normal (), h)
                end
    | VUndef | VNull => (Throw TypeError, h)
    end.

(** OrdinaryDelete: [None] when the property is not configurable. *)
Definition ordinary_delete (o : object) (k : string) : option object :=
  match o_props o !! k with
  | Some d =>
      if pd_configurable d
      then Some (Obj (delete k (o_props o)) (o_extensible o))
      else None
  | None => Some o
  end.

(** The expression [delete target.k]; its value is whether the delete
    succeeded. *)
Definition DeleteProperty (md : mode) (target : value) (k : string) : M bool :=
  fun h =>
    match target with
    | VRef l =>
        match h !! l with
        | None => (Throw TypeError, h)
        | Some o =>
            match ordinary_delete o k with
            | Some o' => (Normal true, <[l := o']> h)
            | None => match md with
                      | Strict => (Throw TypeError, h)
                      | Sloppy => (Normal false, h)
                      end
            end
        end
    | VStr _ => (Normal true, h)
    | VUndef | VNull => (Throw TypeError, h)
    end.

(** Object.freeze(o): SetIntegrityLevel(o, frozen). Every own property
    becomes non-writable and non-configurable and the object stops being
    extensible. Property values are left as they are: an object held in a
    property is not visited. A primitive argument is returned unchanged. *)
Definition freeze_desc (d : pdesc) : pdesc := PDesc (pd_value d) false false.

Definition freeze_object (o : object) : object :=
  Obj (freeze_desc <$> o_props o) false.

Definition Object_freeze (v : value) : M value :=
  fun h =>
    match v with
    | VRef l =>
        match h !! l with
        | Some o => (Normal v, <[l := freeze_object o]> h)
        | None => (Throw TypeError, h)
        end
    | _ => (Normal v, h)
    end.

(** Object.isFrozen on an object. *)
Definition is_frozen (o : object) : bool :=
  negb (o_extensible o) &&
  bool_decide (map_Forall (fun _ d => pd_writable d = false /\ pd_configurable d = false) (o_props o)).

(** Reading along a path of property names, [v.k1.k2...]. *)
Fixpoint get_path (v : value) (path : list string) : M value :=
  match path with
  | [] => ret v
  | k :: rest => let* w := GetV v k in get_path w rest
  end.

(** The assignment [root.k1. ... .kn = v]: the object is reached by reading
    all but the last name, and the last name is assigned on it. An empty
    path is not an assignment to a property and does nothing. *)
Fixpoint assign_path (md : mode) (root : value) (path : list string) (v : value) : M unit :=
  match path with
  | [] => ret ()
  | [k] => PutValue md root k v
  | k :: rest => let* w := GetV root k in assign_path md w rest v
  end.

(** ToBoolean, on the values of this model. *)
Definition ToBoolean (v : value) : bool :=
  match v with
  | VUndef | VNull => false
  | VStr s => negb (String.eqb s "")
  | VRef _ => true
  end.

End JS.

(** ** The fragment of the TypeScript type language used by the module *)

Module TS.
Import JS.

(** [string], a string literal type, and an object type: a list of
    properties, each with its readonly modifier and its type. *)
#[local] Set Warnings "-register-all".
Inductive ty :=
  | TString
  | TLit (s : string)
  | TObject (fields : list (string * (bool * ty))).

Definition prop (k : string) (t : ty) : string * (bool * ty) := (k, (false, t)).

Fixpoint field (fs : list (string * (bool * ty))) (k : string) : option (bool * ty) :=
  match fs with
  | [] => None
  | (k', f) :: fs' => if String.eqb k' k then Some f else field fs' k
  end.

Definition fields_of (t : ty) : list (string * (bool * ty)) :=
  match t with
  | TObject fs => fs
  | _ => []
  end.

(** [Readonly<T>] is the mapped type { readonly [P in keyof T]: T[P] }: it
    marks the properties of T itself and leaves their types alone. *)
Definition Readonly (t : ty) : ty :=
  match t with
  | TObject fs => TObject (map (fun '(k, (_, ft)) => (k, (true, ft))) fs)
  | _ => t
  end.

(** Assignability of a source type to a target type: a literal type is
    assignable to itself and to [string]; an object type is assignable when
    it has every property of the target at an assignable type. Readonly
    modifiers do not take part. *)
Fixpoint assignable (src dst : ty) {struct dst} : bool :=
  match dst with
  | TString => match src with TString | TLit _ => true | TObject _ => false end
  | TLit s => match src with TLit s' => String.eqb s' s | _ => false end
  | TObject fs =>
      match src with
      | TObject gs =>
          (fix all (fs : list (string * (bool * ty))) : bool :=
             match fs with
             | [] => true
             | (k, (_, ft)) :: fs' =>
                 match field gs k with
                 | Some (_, gt) => assignable gt ft
                 | None => false
                 end && all fs'
             end) fs
      | _ => false
      end
  end.

(** The type checker's verdict on the assignment [root.k1. ... .kn = e]
    where [root : t] and [e : src]: every name on the path has to be a
    declared property, the last one must not be readonly, and [src] has to
    be assignable to its type. *)
Fixpoint check_assign (t : ty) (path : list string) (src : ty) : bool :=
  match path with
  | [] => false
  | [k] =>
      match field (fields_of t) k with
      | Some (ro, ft) => negb ro && assignable src ft
      | None => false
      end
  | k :: rest =>
      match field (fields_of t) k with
      | Some (_, ft) => check_assign ft rest src
      | None => false
      end
  end.

(** A run-time value inhabits a type (under strictNullChecks, so undefined
    and null inhabit none of these types). *)
Fixpoint has_type (h : heap) (v : value) (t : ty) {struct t} : bool :=
  match t with
  | TString => match v with VStr _ => true | _ => false end
  | TLit s => match v with VStr s' => String.eqb s' s | _ => false end
  | TObject fs =>
      match v with
      | VRef l =>
          match h !! l with
          | Some o =>
              (fix all (fs : list (string * (bool * ty))) : bool :=
                 match fs with
                 | [] => true
                 | (k, (_, ft)) :: fs' =>
                     match o_props o !! k with
                     | Some d => has_type h (pd_value d) ft
                     | None => false
                     end && all fs'
                 end) fs
          | None => false
          end
      | _ => false
      end
  end.

End TS.

Import JS TS.
Local Open Scope js_scope.

(** ** The module docs/src/config.ts *)

(** [type Config = { seo: { title: ''; description: '' }; github: string;
                     discord: string;
                     algolia: { apiKey: string; appId: string; indexName: string } }] *)
Definition Config : ty :=
  TObject [
    prop "seo" (TObject [
      prop "title" (TLit "");
      prop "description" (TLit "")
    ]);
    prop "github" TString;
    prop "discord" TString;
    prop "algolia" (TObject [
      prop "apiKey" TString;
      prop "appId" TString;
      prop "indexName" TString
    ])
  ].

(** The object literal is evaluated outside in: the outer object is created,
    then each property value in source order, a nested literal creating its
    own object; Object.freeze is applied to the result. *)
Definition seo_literal : M value :=
  let* o := OrdinaryObjectCreate in
  CreateDataPropertyOrThrow o "title" (VStr "") ;;;
  CreateDataPropertyOrThrow o "description" (VStr "") ;;;
  ret (VRef o).

Definition algolia_literal : M value :=
  let* o := OrdinaryObjectCreate in
  CreateDataPropertyOrThrow o "apiKey" (VStr "") ;;;
  CreateDataPropertyOrThrow o "appId" (VStr "") ;;;
  CreateDataPropertyOrThrow o "indexName" (VStr "") ;;;
  ret (VRef o).

Definition config_literal : M value :=
  let* o := OrdinaryObjectCreate in
  let* seo := seo_literal in
  CreateDataPropertyOrThrow o "seo" seo ;;;
  CreateDataPropertyOrThrow o "github" (VStr "https://github.com/dj-nitehawk/FastEndpoints") ;;;
  CreateDataPropertyOrThrow o "discord" (VStr "https://discord.com/invite/yQZ4uvfF2E") ;;;
  let* algolia := algolia_literal in
  CreateDataPropertyOrThrow o "algolia" algolia ;;;
  ret (VRef o).

(** [export const config = Object.freeze<Config>({...})] *)
Definition config : M value :=
  let* o := config_literal in
  Object_freeze o.

(** [Object.freeze<T>(o: T): Readonly<T>], instantiated at [Config], gives
    the exported constant its static type. *)
Definition config_type : ty := Readonly Config.

(** The paths of the seven declared leaf fields and of the four top-level
    properties. *)
Definition declared_fields : list (list string) :=
  [ ["seo"; "title"]; ["seo"; "description"]; ["github"]; ["discord"];
    ["algolia"; "apiKey"]; ["algolia"; "appId"]; ["algolia"; "indexName"] ].

Definition top_level : list string := ["seo"; "github"; "discord"; "algolia"].

Definition nested_fields : list (list string) :=
  [ ["seo"; "title"]; ["seo"; "description"];
    ["algolia"; "apiKey"]; ["algolia"; "appId"]; ["algolia"; "indexName"] ].

(** The values of the declared fields of [c], read in heap [h]. *)
Definition field_values (c : value) (h : heap) : list (completion value) :=
  map (fun p => fst (get_path c p h)) declared_fields.

(** ** Well-formed URLs *)

(** config.ts stores its two links verbatim and validates nothing, so
    well-formedness is taken from RFC 3986: a URL is
    scheme "://" host [ ":" port ] path-abempty [ "?" query ] [ "#" fragment ]
    with a non-empty registered-name host. *)
Module URL.

Definition between (lo hi : nat) (c : ascii) : bool :=
  (lo <=? nat_of_ascii c)%nat && (nat_of_ascii c <=? hi)%nat.

Definition one_of (cs : string) (c : ascii) : bool :=
  existsb (Ascii.eqb c) (list_ascii_of_string cs).

Definition alpha (c : ascii) : bool := between 65 90 c || between 97 122 c.
Definition digit (c : ascii) : bool := between 48 57 c.
Definition hexdig (c : ascii) : bool := digit c || between 65 70 c || between 97 102 c.
Definition unreserved (c : ascii) : bool := alpha c || digit c || one_of "-._~" c.
Definition sub_delims (c : ascii) : bool := one_of "!$&'()*+,;=" c.
Definition scheme_char (c : ascii) : bool := alpha c || digit c || one_of "+-." c.
Definition reg_name_char (c : ascii) : bool := unreserved c || sub_delims c.
Definition pchar (c : ascii) : bool := unreserved c || sub_delims c || one_of ":@" c.
Definition path_char (c : ascii) : bool := pchar c || one_of "/" c.
Definition query_char (c : ascii) : bool := pchar c || one_of "/?" c.

(** Every character is allowed, or starts a percent-encoded octet. *)
Fixpoint all_chars (allowed : ascii -> bool) (l : list ascii) : bool :=
  match l with
  | [] => true
  | c :: r =>
      if Ascii.eqb c "%"%char
      then match r with
           | a :: (b :: r') as r1 =>
               hexdig a && hexdig b &&
               match r1 with
               | _ :: r2 => all_chars allowed r2
               | [] => false
               end
           | _ => false
           end
      else allowed c && all_chars allowed r
  end.

(** The prefix before the first character satisfying [stop], and the rest
    from that character on. *)
Fixpoint break (stop : ascii -> bool) (l : list ascii) : list ascii * list ascii :=
  match l with
  | [] => ([], [])
  | c :: r => if stop c then ([], l)
              else let '(a, b) := break stop r in (c :: a, b)
  end.

Definition scheme_ok (l : list ascii) : bool :=
  match l with
  | c :: r => alpha c && forallb scheme_char r
  | [] => false
  end.

Definition authority_ok (l : list ascii) : bool :=
  let '(host, port) := break (one_of ":") l in
  negb (bool_decide (host = [])) && all_chars reg_name_char host &&
  match port with
  | [] => true
  | _ :: ds => forallb digit ds
  end.

Definition tail_ok (l : list ascii) : bool :=
  let '(before, fragment) := break (one_of "#") l in
  let '(path, query) := break (one_of "?") before in
  all_chars path_char path &&
  all_chars query_char (tl query) &&
  all_chars query_char (tl fragment).

Definition well_formed (s : string) : bool :=
  let '(scheme, rest) := break (one_of ":") (list_ascii_of_string s) in
  scheme_ok scheme &&
  match rest with
  | _ :: c1 :: c2 :: r =>
      Ascii.eqb c1 "/"%char && Ascii.eqb c2 "/"%char &&
      let '(authority, tail) := break (one_of "/?#") r in
      authority_ok authority && tail_ok tail
  | _ => false
  end.

End URL.

(** ** The consumer's search switch *)

(** Modelled from the spec: the check "is search enabled" made by the
    templates that consume the configuration, which are not part of
    config.ts. The search widget is initialised "if all three algolia fields
    are non-empty" and left out otherwise; the check reads the three fields
    and tests each for truthiness, the empty string being falsy. *)
Definition search_enabled (c : value) : M bool :=
  let* apiKey := get_path c ["algolia"; "apiKey"] in
  let* appId := get_path c ["algolia"; "appId"] in
  let* indexName := get_path c ["algolia"; "indexName"] in
  ret (ToBoolean apiKey && ToBoolean appId && ToBoolean indexName).

(** ** What the evaluation of the module leaves in the heap *)

(** The three objects that the evaluation allocates, the outer one at
    address [n]: the frozen outer object and the two nested ones, which are
    left as the literal made them. *)
Definition seo_object : object :=
  Obj (<["description" := data_property (VStr "")]>
       (<["title" := data_property (VStr "")]> ∅)) true.

Definition algolia_object : object :=
  Obj (<["indexName" := data_property (VStr "")]>
       (<["appId" := data_property (VStr "")]>
       (<["apiKey" := data_property (VStr "")]> ∅))) true.

Definition outer_object (n : loc) : object :=
  freeze_object
    (Obj (<["algolia" := data_property (VRef (n + 2))]>
         (<["discord" := data_property (VStr "https://discord.com/invite/yQZ4uvfF2E")]>
         (<["github" := data_property (VStr "https://github.com/dj-nitehawk/FastEndpoints")]>
         (<["seo" := data_property (VRef (n + 1))]> ∅)))) true).

Definition config_objects (n : loc) : list object :=
  [outer_object n; seo_object; algolia_object].

(** The heap after the evaluation of the module in [h], possibly followed
    by further allocations [more], and the reference to the constant. *)
Definition config_heap (h : heap) (more : list object) : heap :=
  h ++ config_objects (List.length h) ++ more.

Definition config_ref (h : heap) : value := VRef (List.length h).

(** The values shipped in config.ts, in the order of [declared_fields]. *)
Definition shipped_values : list (completion value) :=
  [ Normal (VStr ""); Normal (VStr "");
    Normal (VStr "https://github.com/dj-nitehawk/FastEndpoints");
    Normal (VStr "https://discord.com/invite/yQZ4uvfF2E");
    Normal (VStr ""); Normal (VStr ""); Normal (VStr "") ].

(** An attempted write [c.path = e] is described by the path, the static
    type [src] of the assigned expression and the value [v] it evaluates
    to. It is rejected when the type checker refuses it or the assignment
    throws; it is harmless when the field reads the same after it as
    before. *)
Definition write_rejected (md : mode) (t : ty) (c : value) (h : heap)
    (path : list string) (src : ty) (v : value) : Prop :=
  check_assign t path src = false \/
  exists e, fst (assign_path md c path v h) = Throw e.

Definition write_harmless (md : mode) (c : value) (h : heap)
    (path : list string) (v : value) : Prop :=
  fst (get_path c path (snd (assign_path md c path v h))) = fst (get_path c path h).

(** * Lemmas on the embedding *)

Section heap_lemmas.
Context (h : heap).

Lemma lookup_new (os : list object) (i : nat) :
  (h ++ os) !! (List.length h + i) = os !! i.
Proof. by rewrite lookup_app_r, Nat.add_comm, Nat.add_sub by lia. Qed.

Lemma lookup_new_0 (os : list object) :
  (h ++ os) !! List.length h = os !! 0.
Proof. by rewrite <- (Nat.add_0_r (List.length h)), lookup_new. Qed.

Lemma insert_new (os : list object) (i : nat) (o : object) :
  <[List.length h + i := o]> (h ++ os) = h ++ <[i := o]> os.
Proof. apply insert_app_r. Qed.

Lemma insert_new_0 (os : list object) (o : object) :
  <[List.length h := o]> (h ++ os) = h ++ <[0 := o]> os.
Proof. by rewrite <- (Nat.add_0_r (List.length h)) at 1; rewrite insert_new. Qed.
End heap_lemmas.

(** *** Running the module, one command at a time *)

Lemma bind_normal {A B} (m : M A) (k : A -> M B) (h h' : heap) (a : A) :
  m h = (Normal a, h') -> bind m k h = k a h'.
Proof. intros Hm. unfold bind. by rewrite Hm. Qed.

(** Defining a new property on an extensible object that was allocated
    right after [h]. *)
Lemma define_at (h : heap) (o : object) (rest : list object) (k : string) (v : value) :
  o_props o !! k = None ->
  o_extensible o = true ->
  CreateDataPropertyOrThrow (List.length h) k v (h ++ o :: rest)
  = (Normal (), h ++ Obj (<[k := data_property v]> (o_props o)) true :: rest).
Proof.
  intros Hk He. unfold CreateDataPropertyOrThrow.
  by rewrite lookup_new_0; cbn; rewrite Hk, He, insert_new_0.
Qed.

Lemma freeze_at (h : heap) (o : object) (rest : list object) :
  Object_freeze (VRef (List.length h)) (h ++ o :: rest)
  = (Normal (VRef (List.length h)), h ++ freeze_object o :: rest).
Proof. unfold Object_freeze. by rewrite lookup_new_0; cbn; rewrite insert_new_0. Qed.

Ltac run_define :=
  erewrite bind_normal
    by (apply define_at; [ vm_compute; reflexivity | reflexivity ]);
  cbn [o_props o_extensible empty_object].

Lemma seo_literal_run (h : heap) :
  seo_literal h = (Normal (VRef (List.length h)), h ++ [seo_object]).
Proof.
  unfold seo_literal.
  erewrite bind_normal by reflexivity.
  do 2 run_define.
  reflexivity.
Qed.

Lemma algolia_literal_run (h : heap) :
  algolia_literal h = (Normal (VRef (List.length h)), h ++ [algolia_object]).
Proof.
  unfold algolia_literal.
  erewrite bind_normal by reflexivity.
  do 3 run_define.
  reflexivity.
Qed.

Lemma config_literal_run (h : heap) :
  config_literal h
  = (Normal (VRef (List.length h)),
     h ++ [Obj (<["algolia" := data_property (VRef (List.length h + 2))]>
               (<["discord" := data_property (VStr "https://discord.com/invite/yQZ4uvfF2E")]>
               (<["github" := data_property (VStr "https://github.com/dj-nitehawk/FastEndpoints")]>
               (<["seo" := data_property (VRef (List.length h + 1))]> ∅)))) true;
           seo_object; algolia_object]).
Proof.
  unfold config_literal.
  erewrite bind_normal by reflexivity.
  erewrite bind_normal by apply seo_literal_run.
  rewrite length_app, <- app_assoc. cbn [List.length app].
  do 3 run_define.
  erewrite bind_normal by apply algolia_literal_run.
  rewrite length_app, <- app_assoc. cbn [List.length app].
  run_define.
  reflexivity.
Qed.

(** The evaluation of the module in any heap returns normally, with the
    reference to the new outer object, and appends the three objects. *)
Lemma config_run (h : heap) :
  config h = (Normal (VRef (List.length h)), h ++ config_objects (List.length h)).
Proof.
  unfold config.
  erewrite bind_normal by apply config_literal_run.
  by rewrite freeze_at.
Qed.

(** *** Reading the heap after the evaluation *)

Section after_config.
Context (h : heap).

Lemma heap_outer (more : list object) :
  (h ++ config_objects (List.length h) ++ more) !! List.length h
  = Some (outer_object (List.length h)).
Proof. by rewrite lookup_new_0. Qed.

Lemma heap_seo (more : list object) :
  (h ++ config_objects (List.length h) ++ more) !! (List.length h + 1)
  = Some seo_object.
Proof. by rewrite lookup_new. Qed.

Lemma heap_algolia (more : list object) :
  (h ++ config_objects (List.length h) ++ more) !! (List.length h + 2)
  = Some algolia_object.
Proof. by rewrite lookup_new. Qed.
End after_config.

Lemma outer_props (n : loc) :
  o_props (outer_object n) !! "seo" = Some (PDesc (VRef (n + 1)) false false) /\
  o_props (outer_object n) !! "github"
    = Some (PDesc (VStr "https://github.com/dj-nitehawk/FastEndpoints") false false) /\
  o_props (outer_object n) !! "discord"
    = Some (PDesc (VStr "https://discord.com/invite/yQZ4uvfF2E") false false) /\
  o_props (outer_object n) !! "algolia" = Some (PDesc (VRef (n + 2)) false false).
Proof. repeat split; vm_compute; reflexivity. Qed.

(** A frozen object refuses every assignment, to a property it has and to
    one it does not have. *)
Lemma ordinary_set_frozen (o : object) (k : string) (v : value) :
  ordinary_set (freeze_object o) k v = None.
Proof.
  unfold ordinary_set, freeze_object. cbn [o_props o_extensible].
  rewrite lookup_fmap. by destruct (o_props o !! k).
Qed.

(** It refuses the deletion of every property it has. *)
Lemma ordinary_delete_frozen (o : object) (k : string) :
  is_Some (o_props o !! k) -> ordinary_delete (freeze_object o) k = None.
Proof.
  intros [d Hd]. unfold ordinary_delete, freeze_object. cbn [o_props o_extensible].
  by rewrite lookup_fmap, Hd.
Qed.

Lemma is_frozen_freeze (o : object) : is_frozen (freeze_object o) = true.
Proof.
  unfold is_frozen, freeze_object. cbn [o_props o_extensible negb andb].
  apply bool_decide_eq_true. intros k d. rewrite lookup_fmap.
  destruct (o_props o !! k); cbn; [ | done ].
  intros [= <-]. done.
Qed.

Lemma config_run_heap (h : heap) :
  config h = (Normal (config_ref h), config_heap h []).
Proof. unfold config_heap. rewrite app_nil_r. apply config_run. Qed.

(** Own properties of the three objects, read in the heap after the
    evaluation. *)
Section reads.
Context (h : heap) (more : list object).
Let H := config_heap h more.
Let n := List.length h.

Lemma get_seo : get_own H n "seo" = VRef (n + 1).
Proof.
  subst H n. unfold get_own, config_heap. rewrite heap_outer.
  by destruct (outer_props (List.length h)) as (-> & _).
Qed.

Lemma get_github :
  get_own H n "github" = VStr "https://github.com/dj-nitehawk/FastEndpoints".
Proof.
  subst H n. unfold get_own, config_heap. rewrite heap_outer.
  by destruct (outer_props (List.length h)) as (_ & -> & _).
Qed.

Lemma get_discord :
  get_own H n "discord" = VStr "https://discord.com/invite/yQZ4uvfF2E".
Proof.
  subst H n. unfold get_own, config_heap. rewrite heap_outer.
  by destruct (outer_props (List.length h)) as (_ & _ & -> & _).
Qed.

Lemma get_algolia : get_own H n "algolia" = VRef (n + 2).
Proof.
  subst H n. unfold get_own, config_heap. rewrite heap_outer.
  by destruct (outer_props (List.length h)) as (_ & _ & _ & ->).
Qed.

Lemma get_title : get_own H (n + 1) "title" = VStr "".
Proof. subst H n. unfold get_own, config_heap. by rewrite heap_seo. Qed.

Lemma get_description : get_own H (n + 1) "description" = VStr "".
Proof. subst H n. unfold get_own, config_heap. by rewrite heap_seo. Qed.

Lemma get_apiKey : get_own H (n + 2) "apiKey" = VStr "".
Proof. subst H n. unfold get_own, config_heap. by rewrite heap_algolia. Qed.

Lemma get_appId : get_own H (n + 2) "appId" = VStr "".
Proof. subst H n. unfold get_own, config_heap. by rewrite heap_algolia. Qed.

Lemma get_indexName : get_own H (n + 2) "indexName" = VStr "".
Proof. subst H n. unfold get_own, config_heap. by rewrite heap_algolia. Qed.
End reads.

Create Rewrite HintDb config_reads.
#[local] Hint Rewrite get_seo get_github get_discord get_algolia get_title
  get_description get_apiKey get_appId get_indexName : config_reads.

(** Reads along paths from the constant reduce to the own-property reads
    above. *)
Ltac read_config :=
  unfold config_ref; cbn [get_path]; unfold bind, ret, GetV;
  autorewrite with config_reads.

Lemma field_values_config (h : heap) (more : list object) :
  field_values (config_ref h) (config_heap h more) = shipped_values.
Proof.
  unfold field_values, declared_fields. cbn [map]. read_config. reflexivity.
Qed.

Lemma config_has_type (h : heap) (more : list object) :
  has_type (config_heap h more) (config_ref h) Config = true.
Proof.
  unfold config_heap, config_ref. cbn [has_type Config prop].
  rewrite heap_outer.
  destruct (outer_props (List.length h)) as (-> & -> & -> & ->).
  cbn [pd_value]. rewrite heap_seo, heap_algolia. vm_compute. reflexivity.
Qed.

(** Objects allocated after the evaluation leave the constant where it is. *)
Lemma config_heap_twice (h : heap) :
  config_heap (config_heap h []) []
  = config_heap h (config_objects (List.length (config_heap h []))).
Proof. unfold config_heap. by rewrite !app_nil_r, <- app_assoc. Qed.

Lemma config_heap_length (h : heap) (more : list object) :
  List.length (config_heap h more) = List.length h + 3 + List.length more.
Proof. unfold config_heap. rewrite !length_app. cbn. lia. Qed.

(** *** Values of type [Config] *)

(** Reading never changes the heap. *)
Lemma get_path_heap (p : list string) (c : value) (h : heap) :
  snd (get_path c p h) = h.
Proof.
  revert c. induction p as [ | k p IH ]; intros c; [ done | ].
  cbn [get_path]. unfold bind.
  destruct c; cbn; try done; apply IH.
Qed.

Lemma get_path_fst (p : list string) (c : value) (h : heap) (r : completion value) :
  fst (get_path c p h) = r -> get_path c p h = (r, h).
Proof.
  intros <-. rewrite <- (get_path_heap p c h) at 3. by destruct (get_path c p h).
Qed.

Ltac invert_has_type :=
  repeat match goal with
    | H : match ?x !! ?k with _ => _ end = true |- _ =>
        let d := fresh "d" in let E := fresh "E" in
        destruct (x !! k) as [d|] eqn:E; [ | discriminate H ]
    | H : match pd_value ?d with _ => _ end = true |- _ =>
        let E := fresh "E" in
        destruct (pd_value d) eqn:E; try discriminate H
    | H : (_ && _) = true |- _ => apply andb_prop in H as [? ?]
    | H : String.eqb _ _ = true |- _ => apply String.eqb_eq in H; subst
    | H : true = true |- _ => clear H
    end.

(** A value of type [Config] carries the seven declared fields as strings,
    the two seo fields being the empty string. *)
Lemma has_type_Config_inv (h : heap) (c : value) :
  has_type h c Config = true ->
  exists g d k a i,
    field_values c h =
      [ Normal (VStr ""); Normal (VStr ""); Normal (VStr g); Normal (VStr d);
        Normal (VStr k); Normal (VStr a); Normal (VStr i) ].
Proof.
  intros Hty. destruct c as [ | | s | l ]; try discriminate Hty.
  cbn [has_type Config prop] in Hty.
  invert_has_type.
  match goal with
  | Hg : pd_value ?dg = VStr ?g, Eg : _ !! "github" = Some ?dg,
    Hd : pd_value ?dd = VStr ?d, Ed : _ !! "discord" = Some ?dd,
    Hk : pd_value ?dk = VStr ?k, Ek : _ !! "apiKey" = Some ?dk,
    Ha : pd_value ?da = VStr ?a, Ea : _ !! "appId" = Some ?da,
    Hi : pd_value ?di = VStr ?i, Ei : _ !! "indexName" = Some ?di |- _ =>
      exists g, d, k, a, i
  end.
  unfold field_values, declared_fields. cbn [map get_path].
  unfold bind, ret, GetV, get_own.
  repeat match goal with
    | H : ?x = _ |- context [?x] => rewrite H; cbn [fst snd]
    end.
  reflexivity.
Qed.

(** *** Assignments *)

(** Frame lemmas for a heap in which one object was replaced. *)
Lemma get_own_insert_eq (h : heap) (l : loc) (o o' : object) (k : string) :
  h !! l = Some o ->
  get_own (<[l := o']> h) l k
  = match o_props o' !! k with Some d => pd_value d | None => VUndef end.
Proof.
  intros Hl. unfold get_own.
  by rewrite list_lookup_insert_eq by (by eapply lookup_lt_Some).
Qed.

Lemma get_own_insert_ne (h : heap) (l l' : loc) (o' : object) (k : string) :
  l <> l' -> get_own (<[l := o']> h) l' k = get_own h l' k.
Proof. intros Hne. unfold get_own. by rewrite list_lookup_insert_ne. Qed.

(** Assigning to a writable own property replaces its value and nothing
    else. *)
Lemma PutValue_writable (md : mode) (h : heap) (l : loc) (o : object)
    (k : string) (d : pdesc) (v : value) :
  h !! l = Some o ->
  o_props o !! k = Some d ->
  pd_writable d = true ->
  PutValue md (VRef l) k v h
  = (Normal (),
     <[l := Obj (<[k := PDesc v true (pd_configurable d)]> (o_props o)) (o_extensible o)]> h).
Proof.
  intros Hl Hk Hw. unfold PutValue, ordinary_set. by rewrite Hl, Hk, Hw.
Qed.

(** Assigning to any property of a frozen object fails: strict code gets
    a TypeError, sloppy code carries on, and the heap stays as it was. *)
Lemma PutValue_frozen (md : mode) (h : heap) (l : loc) (o : object)
    (k : string) (v : value) :
  h !! l = Some (freeze_object o) ->
  PutValue md (VRef l) k v h
  = (match md with Strict => Throw TypeError | Sloppy => Normal () end, h).
Proof.
  intros Hl. unfold PutValue. rewrite Hl, ordinary_set_frozen. by destruct md.
Qed.

Lemma DeleteProperty_frozen (h : heap) (l : loc) (o : object) (k : string) :
  h !! l = Some (freeze_object o) ->
  is_Some (o_props o !! k) ->
  DeleteProperty Strict (VRef l) k h = (Throw TypeError, h).
Proof.
  intros Hl Hk. unfold DeleteProperty. by rewrite Hl, ordinary_delete_frozen.
Qed.

(** Every property of [Readonly<Config>] is readonly, so no assignment to a
    property of the constant itself type-checks, whatever is assigned. *)
Lemma check_assign_top_level (k : string) (src : ty) :
  check_assign config_type [k] src = false.
Proof.
  unfold config_type, Config, Readonly, prop. cbn [check_assign fields_of map field].
  repeat (destruct (String.eqb _ k); [ reflexivity | ]). reflexivity.
Qed.

(** An assignment to a nested field of the constant: the object reached
    through the top-level property [a] is not frozen, so the assignment
    goes through, the field reads back as the assigned value and the
    properties of the constant itself are untouched. *)
Lemma nested_write (h : heap) (more : list object) (md : mode)
    (a k : string) (la : loc) (oa : object) (d : pdesc) (v : value) :
  get_own (config_heap h more) (List.length h) a = VRef la ->
  la <> List.length h ->
  config_heap h more !! la = Some oa ->
  o_props oa !! k = Some d ->
  pd_writable d = true ->
  exists h2,
    assign_path md (config_ref h) [a; k] v (config_heap h more) = (Normal (), h2) /\
    get_path (config_ref h) [a; k] h2 = (Normal v, h2) /\
    (forall k', get_own h2 (List.length h) k' = get_own (config_heap h more) (List.length h) k').
Proof.
  intros Ha Hne Hla Hk Hw.
  eexists. split; [ | split ].
  - unfold config_ref. cbn [assign_path]. unfold bind, GetV. rewrite Ha.
    by eapply PutValue_writable.
  - unfold config_ref. cbn [get_path]. unfold bind, ret, GetV.
    rewrite get_own_insert_ne, Ha by done.
    erewrite get_own_insert_eq by done. cbn [o_props].
    by rewrite lookup_insert_eq.
  - intros k'. by rewrite get_own_insert_ne.
Qed.

Lemma DeleteProperty_frozen_sloppy (h : heap) (l : loc) (o : object) (k : string) :
  h !! l = Some (freeze_object o) ->
  is_Some (o_props o !! k) ->
  DeleteProperty Sloppy (VRef l) k h = (Normal false, h).
Proof.
  intros Hl Hk. unfold DeleteProperty. by rewrite Hl, ordinary_delete_frozen.
Qed.

(** The four properties of the constant are own properties of the object
    the literal builds, before the freeze. *)
Lemma outer_object_top_level (n : loc) :
  exists o, outer_object n = freeze_object o /\
            Forall (fun k => is_Some (o_props o !! k)) top_level.
Proof.
  eexists. split; [ reflexivity | ].
  unfold top_level.
  repeat apply Forall_cons_2; try apply Forall_nil_2; vm_compute; eauto.
Qed.

(** * Properties of the exported constant *)

(** C7. Evaluating the module never fails: started in any heap, the
    evaluation of [Object.freeze<Config>({...})] returns normally with a
    reference to an object; no run ends in a throw. *)
Theorem config_never_throws (h : heap) :
  (exists l h1, config h = (Normal (VRef l), h1)) /\
  (forall e, fst (config h) <> Throw e).
Proof.
  rewrite config_run_heap. split.
  - by exists (List.length h), (config_heap h []).
  - intros e. cbn. discriminate.
Qed.

(** C4. After the evaluation every declared field, seo.title,
    seo.description, github, discord, algolia.apiKey, algolia.appId and
    algolia.indexName, reads as a string (so none is undefined or null), and
    the constant inhabits the declared type [Config]. *)
Theorem config_fields_present (h : heap) :
  exists c h1,
    config h = (Normal c, h1) /\
    Forall (fun p => exists s, get_path c p h1 = (Normal (VStr s), h1)) declared_fields /\
    has_type h1 c Config = true.
Proof.
  exists (config_ref h), (config_heap h []).
  split; [ apply config_run_heap | ].
  split; [ | apply config_has_type ].
  unfold declared_fields.
  repeat apply Forall_cons_2; try apply Forall_nil_2; read_config; eauto.
Qed.

(** C5. In the constant, github and discord are non-empty strings that
    are well-formed URLs. *)
Theorem config_links_well_formed (h : heap) :
  exists c h1 g d,
    config h = (Normal c, h1) /\
    get_path c ["github"] h1 = (Normal (VStr g), h1) /\
    get_path c ["discord"] h1 = (Normal (VStr d), h1) /\
    g <> "" /\ d <> "" /\
    URL.well_formed g = true /\ URL.well_formed d = true.
Proof.
  exists (config_ref h), (config_heap h []).
  exists "https://github.com/dj-nitehawk/FastEndpoints",
         "https://discord.com/invite/yQZ4uvfF2E".
  split; [ apply config_run_heap | ].
  repeat split; try (read_config; reflexivity); try discriminate;
    vm_compute; reflexivity.
Qed.

(** C10. In the shipped constant the three algolia fields are the empty
    string, and the check "is search enabled" evaluates to false. *)
Theorem config_search_disabled (h : heap) :
  exists c h1,
    config h = (Normal c, h1) /\
    get_path c ["algolia"; "apiKey"] h1 = (Normal (VStr ""), h1) /\
    get_path c ["algolia"; "appId"] h1 = (Normal (VStr ""), h1) /\
    get_path c ["algolia"; "indexName"] h1 = (Normal (VStr ""), h1) /\
    search_enabled c h1 = (Normal false, h1).
Proof.
  exists (config_ref h), (config_heap h []).
  split; [ apply config_run_heap | ].
  unfold search_enabled.
  repeat split; read_config; reflexivity.
Qed.

(** C6. The evaluation is deterministic and has no side effects. Run twice
    in a row it builds two distinct objects whose declared fields are equal
    one by one; the fields do not depend on the heap the evaluation starts
    in; and each run only appends to the heap, leaving every object that
    was there, the first constant included, as it was. *)
Theorem config_pure_deterministic (h h' : heap) :
  exists c1 h1 c2 h2 c' h1',
    config h = (Normal c1, h1) /\
    config h1 = (Normal c2, h2) /\
    config h' = (Normal c', h1') /\
    c1 <> c2 /\
    field_values c1 h2 = field_values c2 h2 /\
    field_values c1 h1 = field_values c' h1' /\
    field_values c1 h2 = field_values c1 h1 /\
    h `prefix_of` h1 /\ h1 `prefix_of` h2.
Proof.
  exists (config_ref h), (config_heap h []).
  exists (config_ref (config_heap h [])), (config_heap (config_heap h []) []).
  exists (config_ref h'), (config_heap h' []).
  repeat split; try apply config_run_heap.
  - unfold config_ref. rewrite config_heap_length. intros [= Heq]. lia.
  - rewrite (field_values_config (config_heap h [])).
    by rewrite config_heap_twice, field_values_config.
  - by rewrite !field_values_config.
  - by rewrite config_heap_twice, !field_values_config.
  - by eexists.
  - by eexists.
Qed.

(** C8. The freeze is shallow. The constant itself is frozen: an
    assignment to seo, github, discord or algolia throws in strict code and
    is dropped in sloppy code, in the heap the evaluation leaves and in every
    later heap that still holds the constant's object as it was left, and
    none of the four can be deleted. The objects held in seo and algolia are
    not frozen: an assignment to any nested field returns normally, the field
    then reads as the assigned value, and the properties of the constant
    itself are as before. *)
Theorem freeze_is_shallow (h : heap) :
  exists l h1 ls la o os oa,
    config h = (Normal (VRef l), h1) /\
    h1 !! l = Some o /\ is_frozen o = true /\
    (forall h', h' !! l = Some o ->
       Forall (fun k => forall v,
                 PutValue Strict (VRef l) k v h' = (Throw TypeError, h') /\
                 PutValue Sloppy (VRef l) k v h' = (Normal (), h')) top_level) /\
    Forall (fun k => DeleteProperty Strict (VRef l) k h1 = (Throw TypeError, h1)) top_level /\
    get_own h1 l "seo" = VRef ls /\ h1 !! ls = Some os /\ is_frozen os = false /\
    get_own h1 l "algolia" = VRef la /\ h1 !! la = Some oa /\ is_frozen oa = false /\
    Forall (fun p => forall md v, exists h2,
              assign_path md (VRef l) p v h1 = (Normal (), h2) /\
              get_path (VRef l) p h2 = (Normal v, h2) /\
              forall k, get_own h2 l k = get_own h1 l k) nested_fields.
Proof.
  exists (List.length h), (config_heap h []), (List.length h + 1), (List.length h + 2).
  eexists _, seo_object, algolia_object.
  split; [ apply config_run_heap | ].
  split; [ apply heap_outer | ].
  split; [ apply is_frozen_freeze | ].
  split.
  { intros h' Hl'. apply Forall_forall. intros k _ v.
    split; by erewrite PutValue_frozen by exact Hl'. }
  split.
  { unfold top_level.
    repeat apply Forall_cons_2; try apply Forall_nil_2;
      (eapply DeleteProperty_frozen; [ apply heap_outer | vm_compute; eauto ]). }
  split; [ apply get_seo | ].
  split; [ apply heap_seo | ].
  split; [ vm_compute; reflexivity | ].
  split; [ apply get_algolia | ].
  split; [ apply heap_algolia | ].
  split; [ vm_compute; reflexivity | ].
  unfold nested_fields.
  repeat apply Forall_cons_2; try apply Forall_nil_2; intros md v.
  1, 2: eapply (nested_write h [] md); [ apply get_seo | lia | apply heap_seo | vm_compute; reflexivity | reflexivity ].
  all: eapply (nested_write h [] md); [ apply get_algolia | lia | apply heap_algolia | vm_compute; reflexivity | reflexivity ].
Qed.

(** C1, as stated, fails on a nested field. In the heap left by the
    evaluation of the module, the assignment [config.algolia.apiKey = e]
    with [e : string] evaluating to "k" type-checks and does not throw, and
    the field reads differently afterwards. *)
Lemma nested_write_not_immutable :
  exists c h1,
    config [] = (Normal c, h1) /\
    has_type h1 (VStr "k") TString = true /\
    ~ write_rejected Strict config_type c h1 ["algolia"; "apiKey"] TString (VStr "k") /\
    ~ write_harmless Strict c h1 ["algolia"; "apiKey"] (VStr "k").
Proof.
  exists (config_ref []), (config_heap [] []).
  split; [ apply config_run_heap | ].
  split; [ reflexivity | ].
  split.
  - intros [Hty | [e He]]; vm_compute in Hty || vm_compute in He; discriminate.
  - unfold write_harmless. vm_compute. discriminate.
Qed.

(** C1, amended. An assignment to one of the properties seo, github,
    discord and algolia of the constant itself does not type-check against
    [Readonly<Config>], throws a TypeError in strict code, and in either mode
    leaves the heap, hence every declared field, nested ones included, as it
    was before the attempt. This holds in the heap the evaluation leaves and
    in every later heap that still holds the constant's object as the
    evaluation left it. *)
Theorem top_level_write_rejected_and_harmless (h : heap) :
  exists l o h1,
    config h = (Normal (VRef l), h1) /\
    h1 !! l = Some o /\
    forall h', h' !! l = Some o ->
      Forall (fun k => forall (src : ty) (v : value) (md : mode),
                check_assign config_type [k] src = false /\
                assign_path Strict (VRef l) [k] v h' = (Throw TypeError, h') /\
                write_rejected md config_type (VRef l) h' [k] src v /\
                write_harmless md (VRef l) h' [k] v /\
                snd (assign_path md (VRef l) [k] v h') = h' /\
                field_values (VRef l) (snd (assign_path md (VRef l) [k] v h'))
                = field_values (VRef l) h')
             top_level.
Proof.
  exists (List.length h), (outer_object (List.length h)), (config_heap h []).
  split; [ apply config_run_heap | ].
  split; [ apply heap_outer | ].
  intros h' Hl'. apply Forall_forall. intros k _ src v md.
  assert (Hrun : forall md', assign_path md' (VRef (List.length h)) [k] v h'
                 = (match md' with Strict => Throw TypeError | Sloppy => Normal () end, h')).
  { intros md'. cbn [assign_path]. by erewrite PutValue_frozen by exact Hl'. }
  split; [ apply check_assign_top_level | ].
  split; [ apply (Hrun Strict) | ].
  split; [ left; apply check_assign_top_level | ].
  unfold write_harmless. by rewrite Hrun.
Qed.

(** C2, as stated, fails on a nested field. The assignment
    [config.algolia.appId = "X"] type-checks, returns normally in strict
    code, and takes effect: the field held the empty string before and holds
    "X" after. *)
Lemma nested_write_silently_succeeds :
  exists c h1 h2,
    config [] = (Normal c, h1) /\
    check_assign config_type ["algolia"; "appId"] (TLit "X") = true /\
    assign_path Strict c ["algolia"; "appId"] (VStr "X") h1 = (Normal (), h2) /\
    get_path c ["algolia"; "appId"] h1 = (Normal (VStr ""), h1) /\
    get_path c ["algolia"; "appId"] h2 = (Normal (VStr "X"), h2) /\
    ~ write_rejected Strict config_type c h1 ["algolia"; "appId"] (TLit "X") (VStr "X").
Proof.
  exists (config_ref []), (config_heap [] []).
  eexists.
  split; [ apply config_run_heap | ].
  split; [ reflexivity | ].
  split; [ vm_compute; reflexivity | ].
  split; [ vm_compute; reflexivity | ].
  split; [ vm_compute; reflexivity | ].
  intros [Hty | [e He]]; vm_compute in Hty || vm_compute in He; discriminate.
Qed.

(** C2, amended. Every attempt to alter one of the properties seo, github,
    discord and algolia of the constant itself is rejected: an assignment is
    refused by the type checker, whatever the assigned type; executed in
    strict code the assignment and the deletion throw a TypeError at the
    mutation site; in sloppy code the assignment is dropped and the deletion
    answers false; and in neither mode does either change the heap. This
    holds in the heap the evaluation leaves and in every later heap that
    still holds the constant's object as the evaluation left it. *)
Theorem top_level_mutation_rejected (h : heap) :
  exists l o h1,
    config h = (Normal (VRef l), h1) /\
    h1 !! l = Some o /\
    forall h', h' !! l = Some o ->
      Forall (fun k =>
                (forall src : ty, check_assign config_type [k] src = false) /\
                (forall v : value,
                   assign_path Strict (VRef l) [k] v h' = (Throw TypeError, h') /\
                   assign_path Sloppy (VRef l) [k] v h' = (Normal (), h')) /\
                DeleteProperty Strict (VRef l) k h' = (Throw TypeError, h') /\
                DeleteProperty Sloppy (VRef l) k h' = (Normal false, h') /\
                (forall (md : mode) (v : value),
                   snd (assign_path md (VRef l) [k] v h') = h') /\
                (forall md : mode, snd (DeleteProperty md (VRef l) k h') = h'))
             top_level.
Proof.
  exists (List.length h), (outer_object (List.length h)), (config_heap h []).
  split; [ apply config_run_heap | ].
  split; [ apply heap_outer | ].
  intros h' Hl'.
  destruct (outer_object_top_level (List.length h)) as (o & Ho & Hown).
  rewrite Ho in Hl'.
  eapply Forall_impl; [ exact Hown | ].
  intros k Hk. cbn beta in Hk.
  assert (Hrun : forall md v, assign_path md (VRef (List.length h)) [k] v h'
                 = (match md with Strict => Throw TypeError | Sloppy => Normal () end, h')).
  { intros md v. cbn [assign_path]. by erewrite PutValue_frozen by exact Hl'. }
  split; [ intros src; apply check_assign_top_level | ].
  split; [ intros v; split; apply Hrun | ].
  split; [ by eapply DeleteProperty_frozen | ].
  split; [ by eapply DeleteProperty_frozen_sloppy | ].
  split.
  - intros md v. by rewrite Hrun.
  - intros [ | ].
    + by erewrite DeleteProperty_frozen.
    + by erewrite DeleteProperty_frozen_sloppy.
Qed.

(** *** Values of type [Config] and the search switch *)

Lemma search_enabled_value (h : heap) (c : value) (k a i : string) :
  get_path c ["algolia"; "apiKey"] h = (Normal (VStr k), h) ->
  get_path c ["algolia"; "appId"] h = (Normal (VStr a), h) ->
  get_path c ["algolia"; "indexName"] h = (Normal (VStr i), h) ->
  search_enabled c h
  = (Normal (negb (String.eqb k "") && negb (String.eqb a "") && negb (String.eqb i "")), h).
Proof.
  intros Hk Ha Hi. unfold search_enabled.
  erewrite bind_normal by exact Hk.
  erewrite bind_normal by exact Ha.
  erewrite bind_normal by exact Hi.
  reflexivity.
Qed.

(** C3. For every value of type [Config] the three algolia fields read as
    strings; the check "is search enabled" returns false exactly when at
    least one of them is the empty string, and true exactly when all three
    are non-empty. The state with all three empty is a value of the type:
    the shipped constant is one. *)
Theorem search_enabled_iff_all_non_empty :
  (forall (h : heap) (c : value),
     has_type h c Config = true ->
     exists k a i,
       get_path c ["algolia"; "apiKey"] h = (Normal (VStr k), h) /\
       get_path c ["algolia"; "appId"] h = (Normal (VStr a), h) /\
       get_path c ["algolia"; "indexName"] h = (Normal (VStr i), h) /\
       (search_enabled c h = (Normal false, h) <-> k = "" \/ a = "" \/ i = "") /\
       (search_enabled c h = (Normal true, h) <-> k <> "" /\ a <> "" /\ i <> "")) /\
  (exists c h1,
     config [] = (Normal c, h1) /\
     has_type h1 c Config = true /\
     get_path c ["algolia"; "apiKey"] h1 = (Normal (VStr ""), h1) /\
     get_path c ["algolia"; "appId"] h1 = (Normal (VStr ""), h1) /\
     get_path c ["algolia"; "indexName"] h1 = (Normal (VStr ""), h1)).
Proof.
  split.
  - intros h c Hty.
    destruct (has_type_Config_inv h c Hty) as (g & d & k & a & i & Hf).
    unfold field_values, declared_fields in Hf. cbn [map] in Hf.
    injection Hf as _ _ _ _ Hk Ha Hi.
    apply (get_path_fst ["algolia"; "apiKey"]) in Hk.
    apply (get_path_fst ["algolia"; "appId"]) in Ha.
    apply (get_path_fst ["algolia"; "indexName"]) in Hi.
    exists k, a, i.
    rewrite (search_enabled_value h c k a i Hk Ha Hi).
    do 3 (split; [ assumption | ]).
    split; split.
    + intros [= Hb].
      destruct (String.eqb_spec k ""); [ by left | ].
      destruct (String.eqb_spec a ""); [ by right; left | ].
      destruct (String.eqb_spec i ""); [ by right; right | discriminate Hb ].
    + intros [-> | [-> | ->]]; cbn; by rewrite ?andb_false_r.
    + intros [= Hb].
      destruct (String.eqb_spec k ""); [ discriminate Hb | ].
      destruct (String.eqb_spec a ""); [ discriminate Hb | ].
      destruct (String.eqb_spec i ""); [ discriminate Hb | done ].
    + intros (Hk' & Ha' & Hi').
      apply String.eqb_neq in Hk', Ha', Hi'. by rewrite Hk', Ha', Hi'.
  - exists (config_ref []), (config_heap [] []).
    split; [ apply config_run_heap | ].
    split; [ apply config_has_type | ].
    repeat split; read_config; reflexivity.
Qed.

(** C3, at the shipped constant: all three fields are empty and the check
    returns false. *)
Lemma search_enabled_iff_all_non_empty_witness :
  has_type (config_heap [] []) (config_ref []) Config = true /\
  exists k a i,
    get_path (config_ref []) ["algolia"; "apiKey"] (config_heap [] [])
      = (Normal (VStr k), config_heap [] []) /\
    get_path (config_ref []) ["algolia"; "appId"] (config_heap [] [])
      = (Normal (VStr a), config_heap [] []) /\
    get_path (config_ref []) ["algolia"; "indexName"] (config_heap [] [])
      = (Normal (VStr i), config_heap [] []) /\
    (search_enabled (config_ref []) (config_heap [] []) = (Normal false, config_heap [] [])
       <-> k = "" \/ a = "" \/ i = "") /\
    (search_enabled (config_ref []) (config_heap [] []) = (Normal true, config_heap [] [])
       <-> k <> "" /\ a <> "" /\ i <> "").
Proof.
  split.
  - vm_compute. reflexivity.
  - apply (proj1 search_enabled_iff_all_non_empty (config_heap [] []) (config_ref [])).
    vm_compute. reflexivity.
Defined.



(** * Further properties of Object.freeze and of [Readonly], as config.ts uses them *)

Lemma freeze_object_idempotent (o : object) :
  freeze_object (freeze_object o) = freeze_object o.
Proof.
  unfold freeze_object. cbn [o_props]. f_equal.
  rewrite <- map_fmap_compose. by apply map_fmap_ext.
Qed.

(** X1. Object.freeze is idempotent: freezing its own result again returns
    the same completion and leaves the heap that the first call produced,
    whatever the argument (an object, a dangling reference, a primitive). *)
Theorem Object_freeze_idempotent (h : heap) (v : value) :
  Object_freeze v (snd (Object_freeze v h)) = Object_freeze v h.
Proof.
  destruct v as [ | | s | l ]; try reflexivity.
  unfold Object_freeze. destruct (h !! l) as [o|] eqn:Hl; cbn [snd].
  - rewrite list_lookup_insert_eq by (by eapply lookup_lt_Some).
    by rewrite freeze_object_idempotent, list_insert_insert_eq.
  - by rewrite Hl.
Qed.

Lemma Object_freeze_get_own (h : heap) (v : value) (l : loc) (k : string) :
  get_own (snd (Object_freeze v h)) l k = get_own h l k.
Proof.
  destruct v as [ | | s | l0 ]; try reflexivity.
  unfold Object_freeze. destruct (h !! l0) as [o|] eqn:Hl; [ | reflexivity ].
  cbn [snd]. destruct (decide (l0 = l)) as [-> | Hne].
  - erewrite get_own_insert_eq by done. unfold get_own. rewrite Hl.
    unfold freeze_object. cbn [o_props]. rewrite lookup_fmap.
    by destruct (o_props o !! k).
  - by rewrite get_own_insert_ne.
Qed.

Lemma get_path_get_own_ext (h h' : heap) :
  (forall l k, get_own h' l k = get_own h l k) ->
  forall (p : list string) (c : value), fst (get_path c p h') = fst (get_path c p h).
Proof.
  intros Hown p. induction p as [ | k p IH ]; intros c; [ done | ].
  cbn [get_path]. unfold bind.
  destruct c as [ | | s | l ]; cbn; try done; try apply IH.
  rewrite Hown. apply IH.
Qed.

(** X2. Object.freeze changes no value: after freezing anything, every
    read along every path from every value gives what it gave before. *)
Theorem Object_freeze_preserves_reads (h : heap) (v c : value) (p : list string) :
  fst (get_path c p (snd (Object_freeze v h))) = fst (get_path c p h).
Proof. apply get_path_get_own_ext. intros l k. apply Object_freeze_get_own. Qed.

(** X3. Object.freeze is shallow in every heap. Freezing a live object
    returns the reference it was given, allocates nothing, replaces that one
    object by its frozen form and leaves every other object, those its
    properties refer to included, untouched; afterwards the object reports
    frozen, a strict assignment to any of its own properties throws a
    TypeError, a sloppy one is dropped, and neither changes the heap. *)
Theorem Object_freeze_shallow (h : heap) (l : loc) (o : object) :
  h !! l = Some o ->
  exists h1,
    Object_freeze (VRef l) h = (Normal (VRef l), h1) /\
    List.length h1 = List.length h /\
    h1 !! l = Some (freeze_object o) /\
    is_frozen (freeze_object o) = true /\
    (forall l', l' <> l -> h1 !! l' = h !! l') /\
    (forall k v, is_Some (o_props o !! k) ->
       PutValue Strict (VRef l) k v h1 = (Throw TypeError, h1) /\
       PutValue Sloppy (VRef l) k v h1 = (Normal (), h1)).
Proof.
  intros Hl. exists (<[l := freeze_object o]> h).
  assert (Hl1 : <[l := freeze_object o]> h !! l = Some (freeze_object o))
    by (apply list_lookup_insert_eq; by eapply lookup_lt_Some).
  split; [ unfold Object_freeze; by rewrite Hl | ].
  split; [ apply length_insert | ].
  split; [ exact Hl1 | ].
  split; [ apply is_frozen_freeze | ].
  split; [ intros l' Hne; by apply list_lookup_insert_ne | ].
  intros k v _. split; by erewrite PutValue_frozen by exact Hl1.
Qed.

(** X3, on a heap of two objects, the first holding a reference to the
    second. *)
Lemma Object_freeze_shallow_witness :
  exists h1,
    Object_freeze (VRef 0)
      [Obj (<["inner" := data_property (VRef 1)]> ∅) true;
       Obj (<["x" := data_property (VStr "a")]> ∅) true]
    = (Normal (VRef 0), h1) /\
    h1 !! 1 = Some (Obj (<["x" := data_property (VStr "a")]> ∅) true).
Proof.
  destruct (Object_freeze_shallow
              [Obj (<["inner" := data_property (VRef 1)]> ∅) true;
               Obj (<["x" := data_property (VStr "a")]> ∅) true]
              0 _ eq_refl) as (h1 & Hrun & _ & _ & _ & Hframe & _).
  exists h1. split; [ exact Hrun | ].
  rewrite Hframe by lia. reflexivity.
Defined.

Lemma field_Readonly (fs : list (string * (bool * ty))) (k : string) :
  field (fields_of (Readonly (TObject fs))) k
  = (fun f => (true, snd f)) <$> field fs k.
Proof.
  cbn [Readonly fields_of].
  induction fs as [ | [k' [ro ft]] fs IH ]; [ done | ].
  cbn [map field]. by destruct (String.eqb k' k).
Qed.

(** X4. [Readonly<T>] is shallow and idempotent, for every type T of the
    fragment. Applying it twice is applying it once; no assignment to a
    property of a value of type Readonly<T> itself type-checks; an assignment
    through a path of two or more names is checked exactly as it is against
    T; and the values of type Readonly<T> are the values of type T. *)
Theorem Readonly_is_shallow (t : ty) :
  Readonly (Readonly t) = Readonly t /\
  (forall k src, check_assign (Readonly t) [k] src = false) /\
  (forall k k' rest src,
     check_assign (Readonly t) (k :: k' :: rest) src
     = check_assign t (k :: k' :: rest) src) /\
  (forall h v, has_type h v (Readonly t) = has_type h v t).
Proof.
  destruct t as [ | s | fs ]; try by repeat split.
  split; [ | split; [ | split ] ].
  - cbn [Readonly]. f_equal. rewrite map_map. apply map_ext.
    by intros [k [ro ft]].
  - intros k src. cbn [check_assign]. rewrite field_Readonly.
    by destruct (field fs k) as [[ro ft]|].
  - intros k k' rest src.
    change (match field (fields_of (Readonly (TObject fs))) k with
            | Some (_, ft) => check_assign ft (k' :: rest) src
            | None => false
            end
            = match field fs k with
              | Some (_, ft) => check_assign ft (k' :: rest) src
              | None => false
              end).
    rewrite field_Readonly. by destruct (field fs k) as [[ro ft]|].
  - intros h v. cbn [Readonly has_type].
    destruct v as [ | | s | l ]; try reflexivity.
    destruct (h !! l) as [o|]; [ | reflexivity ].
    induction fs as [ | [k [ro ft]] fs IH ]; [ reflexivity | ].
    cbn [map]. by rewrite IH.
Qed.


(** *** Assignments to nested fields of the constant *)

(** The heap after the evaluation with the two nested objects replaced. *)
Lemma heap_three (h : heap) (a b c : object) :
  (h ++ [a; b; c]) !! List.length h = Some a /\
  (h ++ [a; b; c]) !! (List.length h + 1) = Some b /\
  (h ++ [a; b; c]) !! (List.length h + 2) = Some c.
Proof. by rewrite lookup_new_0, !lookup_new. Qed.

Lemma config_heap_insert_seo (h : heap) (o : object) :
  <[List.length h + 1 := o]> (config_heap h [])
  = h ++ [outer_object (List.length h); o; algolia_object].
Proof. unfold config_heap. by rewrite insert_new. Qed.

Lemma config_heap_insert_algolia (h : heap) (o : object) :
  <[List.length h + 2 := o]> (config_heap h [])
  = h ++ [outer_object (List.length h); seo_object; o].
Proof. unfold config_heap. by rewrite insert_new. Qed.

(** The declared fields of the constant, read when other objects stand in
    the places of the two nested ones. *)
Lemma field_values_three (h : heap) (so sa : object) :
  let rd (o : object) (k : string) : completion value :=
    Normal (match o_props o !! k with Some d => pd_value d | None => VUndef end) in
  field_values (config_ref h) (h ++ [outer_object (List.length h); so; sa])
  = [ rd so "title"; rd so "description";
      Normal (VStr "https://github.com/dj-nitehawk/FastEndpoints");
      Normal (VStr "https://discord.com/invite/yQZ4uvfF2E");
      rd sa "apiKey"; rd sa "appId"; rd sa "indexName" ].
Proof.
  destruct (heap_three h (outer_object (List.length h)) so sa) as (H0 & H1 & H2).
  destruct (outer_props (List.length h)) as (Ps & Pg & Pd & Pa).
  unfold field_values, declared_fields, config_ref. cbn [map get_path].
  unfold bind, ret, GetV, get_own.
  rewrite H0, Ps, Pg, Pd, Pa. cbn [pd_value fst]. rewrite H1, H2.
  reflexivity.
Qed.


(** The run of an assignment to a nested field, whatever objects stand in
    the places of the two nested ones. *)
Lemma write_three_seo (h : heap) (so sa : object) (md : mode) (k : string)
    (d : pdesc) (v : value) :
  o_props so !! k = Some d ->
  pd_writable d = true ->
  assign_path md (config_ref h) ["seo"; k] v (h ++ [outer_object (List.length h); so; sa])
  = (Normal (),
     h ++ [outer_object (List.length h);
           Obj (<[k := PDesc v true (pd_configurable d)]> (o_props so)) (o_extensible so);
           sa]).
Proof.
  intros Hk Hw.
  destruct (heap_three h (outer_object (List.length h)) so sa) as (H0 & H1 & H2).
  destruct (outer_props (List.length h)) as (Ps & _).
  unfold config_ref. cbn [assign_path]. unfold bind, GetV, get_own.
  rewrite H0, Ps. cbn [pd_value].
  erewrite PutValue_writable by eassumption.
  by rewrite insert_new.
Qed.

Lemma write_three_algolia (h : heap) (so sa : object) (md : mode) (k : string)
    (d : pdesc) (v : value) :
  o_props sa !! k = Some d ->
  pd_writable d = true ->
  assign_path md (config_ref h) ["algolia"; k] v (h ++ [outer_object (List.length h); so; sa])
  = (Normal (),
     h ++ [outer_object (List.length h);
           so;
           Obj (<[k := PDesc v true (pd_configurable d)]> (o_props sa)) (o_extensible sa)]).
Proof.
  intros Hk Hw.
  destruct (heap_three h (outer_object (List.length h)) so sa) as (H0 & H1 & H2).
  destruct (outer_props (List.length h)) as (_ & _ & _ & Pa).
  unfold config_ref. cbn [assign_path]. unfold bind, GetV, get_own.
  rewrite H0, Pa. cbn [pd_value].
  erewrite PutValue_writable by eassumption.
  by rewrite insert_new.
Qed.

Lemma config_heap_three (h : heap) :
  config_heap h [] = h ++ [outer_object (List.length h); seo_object; algolia_object].
Proof. unfold config_heap, config_objects. by rewrite app_nil_r. Qed.

Lemma write_seo (h : heap) (md : mode) (k : string) (v : value) :
  k = "title" \/ k = "description" ->
  assign_path md (config_ref h) ["seo"; k] v (config_heap h [])
  = (Normal (),
     h ++ [outer_object (List.length h);
           Obj (<[k := PDesc v true true]> (o_props seo_object)) true;
           algolia_object]).
Proof.
  intros Hk. rewrite config_heap_three.
  destruct Hk as [-> | ->];
    by erewrite write_three_seo by (vm_compute; reflexivity).
Qed.

Lemma write_algolia (h : heap) (md : mode) (k : string) (v : value) :
  k = "apiKey" \/ k = "appId" \/ k = "indexName" ->
  assign_path md (config_ref h) ["algolia"; k] v (config_heap h [])
  = (Normal (),
     h ++ [outer_object (List.length h);
           seo_object;
           Obj (<[k := PDesc v true true]> (o_props algolia_object)) true]).
Proof.
  intros Hk. rewrite config_heap_three.
  destruct Hk as [-> | [-> | ->]];
    by erewrite write_three_algolia by (vm_compute; reflexivity).
Qed.

Ltac run_write :=
  erewrite bind_normal
    by (first [ apply write_three_seo | apply write_three_algolia ];
        [ vm_compute; reflexivity | reflexivity ]).



(** X6. An assignment to a nested field of the constant changes that field
    and no other: whatever the value and the mode, afterwards the assigned
    field reads as the value and each of the other six declared fields reads
    as it did before. *)
Theorem nested_write_frame (h : heap) :
  exists c h1,
    config h = (Normal c, h1) /\
    Forall (fun p => forall md v,
              field_values c (snd (assign_path md c p v h1))
              = map (fun q => if bool_decide (q = p) then Normal v
                              else fst (get_path c q h1))
                    declared_fields)
           nested_fields.
Proof.
  exists (config_ref h), (config_heap h []).
  split; [ apply config_run_heap | ].
  unfold nested_fields.
  repeat apply Forall_cons_2; try apply Forall_nil_2; intros md v;
    first [ rewrite write_seo by auto | rewrite write_algolia by auto ];
    cbn [snd]; rewrite field_values_three; cbn zeta;
    unfold declared_fields; cbn [map]; read_config; cbn [fst];
    vm_compute; reflexivity.
Qed.

(** X7. Successive assignments to one nested field of the constant: the
    last one wins, the heap after two assignments being the heap after the
    second alone; and assigning the shipped value, the empty string, to a
    field that still holds it leaves the heap as it was. So a nested write is
    undone by writing the empty string back. *)
Theorem nested_write_last_wins (h : heap) :
  exists c h1,
    config h = (Normal c, h1) /\
    Forall (fun p => forall md v w,
              (assign_path md c p v ;;; assign_path md c p w) h1
              = assign_path md c p w h1 /\
              assign_path md c p (VStr "") h1 = (Normal (), h1))
           nested_fields.
Proof.
  exists (config_ref h), (config_heap h []).
  split; [ apply config_run_heap | ].
  unfold nested_fields.
  repeat apply Forall_cons_2; try apply Forall_nil_2; intros md v w;
    rewrite config_heap_three; (split; [ run_write | ]);
    repeat first [ erewrite write_three_seo by (vm_compute; reflexivity)
                 | erewrite write_three_algolia by (vm_compute; reflexivity) ];
    apply (f_equal (pair (Normal ()))); apply (f_equal (app h));
    vm_compute; reflexivity.
Qed.

(** X8. Assignments to two different nested fields of the constant commute:
    in either order they leave the same heap. *)
Theorem nested_writes_commute (h : heap) :
  exists c h1,
    config h = (Normal c, h1) /\
    Forall (fun p =>
      Forall (fun q => p = q \/ forall md v w,
                (assign_path md c p v ;;; assign_path md c q w) h1
                = (assign_path md c q w ;;; assign_path md c p v) h1)
             nested_fields)
      nested_fields.
Proof.
  exists (config_ref h), (config_heap h []).
  split; [ apply config_run_heap | ].
  unfold nested_fields.
  repeat apply Forall_cons_2; try apply Forall_nil_2;
    try (by left);
    right; intros md v w; rewrite config_heap_three;
    do 2 run_write;
    repeat first [ erewrite write_three_seo by (vm_compute; reflexivity)
                 | erewrite write_three_algolia by (vm_compute; reflexivity) ];
    apply (f_equal (pair (Normal ()))); apply (f_equal (app h));
    vm_compute; reflexivity.
Qed.

(** *** A frozen object stays as it is *)

Lemma CreateDataPropertyOrThrow_heap (l : loc) (k : string) (v : value) (h : heap) :
  snd (CreateDataPropertyOrThrow l k v h) = h \/
  exists o, h !! l = Some o /\
            (match o_props o !! k with
             | Some d => pd_configurable d = true
             | None => o_extensible o = true
             end) /\
            snd (CreateDataPropertyOrThrow l k v h)
            = <[l := Obj (<[k := data_property v]> (o_props o)) (o_extensible o)]> h.
Proof.
  unfold CreateDataPropertyOrThrow.
  destruct (h !! l) as [o|] eqn:Hl; [ | by left ].
  destruct (o_props o !! k) as [d|] eqn:Hk.
  - destruct (pd_configurable d) eqn:Hc; [ | by left ].
    right. exists o. rewrite Hk, Hc. repeat split.
  - destruct (o_extensible o) eqn:He; [ | by left ].
    right. exists o. rewrite Hk, He. repeat split.
Qed.

(** X9. Once frozen, an object is never changed again: whatever the target,
    the property name, the value and the mode, an assignment, a deletion, a
    property definition, another Object.freeze and an allocation all leave a
    frozen object in its place and as it was. So the heaps in which the
    constant's object is as the evaluation left it are all the heaps that
    these operations reach afterwards. *)
Theorem frozen_object_is_stable (h : heap) (l : loc) (o : object) :
  h !! l = Some (freeze_object o) ->
  (forall md target k v,
     snd (PutValue md target k v h) !! l = Some (freeze_object o)) /\
  (forall md target k,
     snd (DeleteProperty md target k h) !! l = Some (freeze_object o)) /\
  (forall l' k v,
     snd (CreateDataPropertyOrThrow l' k v h) !! l = Some (freeze_object o)) /\
  (forall v, snd (Object_freeze v h) !! l = Some (freeze_object o)) /\
  snd (OrdinaryObjectCreate h) !! l = Some (freeze_object o).
Proof.
  intros Hl.
  assert (Hlt : l < List.length h) by (by eapply lookup_lt_Some).
  split; [ | split; [ | split; [ | split ] ] ].
  - intros md target k v. unfold PutValue.
    destruct target as [ | | s | l' ]; try by destruct md.
    destruct (h !! l') as [o'|] eqn:Hl'; [ | done ].
    destruct (ordinary_set o' k v) as [o''|] eqn:Hs; [ | by destruct md ].
    cbn [snd]. destruct (decide (l' = l)) as [-> | Hne].
    + rewrite Hl in Hl'. injection Hl' as <-.
      by rewrite ordinary_set_frozen in Hs.
    + by rewrite list_lookup_insert_ne.
  - intros md target k. unfold DeleteProperty.
    destruct target as [ | | s | l' ]; try done.
    destruct (h !! l') as [o'|] eqn:Hl'; [ | done ].
    destruct (ordinary_delete o' k) as [o''|] eqn:Hd; [ | by destruct md ].
    cbn [snd]. destruct (decide (l' = l)) as [-> | Hne].
    + rewrite Hl in Hl'. injection Hl' as <-.
      rewrite list_lookup_insert_eq by done. f_equal.
      unfold ordinary_delete, freeze_object in Hd. cbn [o_props o_extensible] in Hd.
      rewrite lookup_fmap in Hd.
      destruct (o_props o !! k); cbn in Hd; [ discriminate Hd | ].
      by injection Hd as <-.
    + by rewrite list_lookup_insert_ne.
  - intros l' k v.
    destruct (CreateDataPropertyOrThrow_heap l' k v h)
      as [-> | (o' & Hl' & Hok & ->)]; [ done | ].
    destruct (decide (l' = l)) as [-> | Hne]; [ | by rewrite list_lookup_insert_ne ].
    rewrite Hl in Hl'. injection Hl' as <-.
    unfold freeze_object in Hok. cbn [o_props o_extensible] in Hok.
    rewrite lookup_fmap in Hok.
    destruct (o_props o !! k); cbn in Hok; discriminate Hok.
  - intros v. unfold Object_freeze.
    destruct v as [ | | s | l' ]; try done.
    destruct (h !! l') as [o'|] eqn:Hl'; [ | done ].
    cbn [snd]. destruct (decide (l' = l)) as [-> | Hne].
    + rewrite Hl in Hl'. injection Hl' as <-.
      rewrite list_lookup_insert_eq by done.
      by rewrite freeze_object_idempotent.
    + by rewrite list_lookup_insert_ne.
  - unfold OrdinaryObjectCreate. cbn [snd]. by rewrite lookup_app_l.
Qed.

(** X9, on a heap holding one frozen object: an assignment to it, in strict
    code, leaves it in place. *)
Lemma frozen_object_is_stable_witness :
  snd (PutValue Strict (VRef 0) "x" (VStr "b")
         [freeze_object (Obj (<["x" := data_property (VStr "a")]> ∅) true)]) !! 0
  = Some (freeze_object (Obj (<["x" := data_property (VStr "a")]> ∅) true)).
Proof.
  apply (proj1 (frozen_object_is_stable
                  [freeze_object (Obj (<["x" := data_property (VStr "a")]> ∅) true)]
                  0 _ eq_refl)).
Defined.
